(** * Slicer25: a 25-slice plane with named metazones

    Shallow embedding of [src/Slicer25.js] and the properties its
    specification states about it.

    Modelling conventions.
    - Surface dimensions and pixel bounds are JavaScript numbers holding
      integers; they are modelled as [Z].
    - Query coordinates are arbitrary finite JavaScript numbers; every finite
      double is a rational, so they are modelled as [Q].
    - [dim * (pct / 100)] is a floating point product in the source.  It is
      modelled by the exact rational product.  The exact value is a multiple
      of 1/100, so the two can only round differently at an exact half; there
      the stored 0.34 and 0.02 lie above their exact values and the stored
      0.15 lies less than half a unit in the last place below, so the
      product is the half itself or just above it, which [Math.round] takes
      to the same integer.
    - [undefined], [null] and the [TypeError] raised by a property read on
      either are modelled explicitly. *)

From Stdlib Require Import ZArith QArith Qround List Lia ZifyNat.
From stdpp Require Import base option list gmap strings.
Import ListNotations.

Local Open Scope Z_scope.

(** ** The literal table *)

(** Modelled from the spec: the global table [lit] of named literals is not
    part of the source file.  The specification starts the cursor at (0,0),
    subtracts one for inclusive stops, closes a row when [i mod 5 == 0] and
    divides percentages by 100, which fixes [lit.num]; [lit.x] and [lit.y]
    are two distinct axis tags. *)
Module lit.
Module num.
Definition zero : Z := 0.
Definition one : Z := 1.
Definition five : Z := 5.
Definition onehundred : Z := 100.
End num.
Inductive axis := x | y.
Definition axis_eqb (a b : axis) : bool :=
  match a, b with
  | x, x | y, y => true
  | _, _ => false
  end.
End lit.

(** ** JavaScript values and errors *)

Inductive error := TypeError.

Inductive result (A : Type) :=
| Ok (a : A)
| Throw (e : error).
Arguments Ok {A} a.
Arguments Throw {A} e.

#[global] Instance result_ret : MRet result := fun _ a => Ok a.
#[global] Instance result_bind : MBind result := fun _ _ k m =>
  match m with
  | Ok a => k a
  | Throw e => Throw e
  end.

(** [Math.round]: the nearest integer, an exact half going up. *)
Definition Math_round (q : Q) : Z := Qfloor (q + (1 # 2))%Q.

(** A number-valued slot that may still hold [null] or be absent. *)
Inductive jsnum :=
| JUndefined
| JNull
| JNum (n : Z).

(** [ToNumber] for the relational operators: [null] is 0, [undefined] is
    NaN (every comparison with it is false). *)
Definition toNumber (v : jsnum) : option Z :=
  match v with
  | JUndefined => None
  | JNull => Some 0
  | JNum n => Some n
  end.

(** [a < b] and [a > b] with an integer on the left. *)
Definition js_lt (a : Z) (b : jsnum) : bool :=
  match toNumber b with Some n => a <? n | None => false end.
Definition js_gt (a : Z) (b : jsnum) : bool :=
  match toNumber b with Some n => a >? n | None => false end.

(** [x >= b] and [x <= b] with an arbitrary finite number on the left. *)
Definition js_geq (x : Q) (b : jsnum) : bool :=
  match toNumber b with Some n => Qle_bool (inject_Z n) x | None => false end.
Definition js_leq (x : Q) (b : jsnum) : bool :=
  match toNumber b with Some n => Qle_bool x (inject_Z n) | None => false end.

Definition is_null (v : jsnum) : bool :=
  match v with JNull => true | _ => false end.

(** ** Ranges *)

(** The object literal built by [_getScreenRangeFromXYPercent]. *)
Record Range := mkRange {
  xstart : Z;
  xstop : Z;
  ystart : Z;
  ystop : Z
}.

(** The object literal built by [_getMergedRange]; its fields are [null]
    when the loop never ran. *)
Record Bounds := mkBounds {
  b_xstart : jsnum;
  b_ystart : jsnum;
  b_xstop : jsnum;
  b_ystop : jsnum
}.

Definition set_ystop (r : Range) (v : Z) : Range :=
  mkRange (xstart r) (xstop r) (ystart r) v.

(** A 1-based array: index 0 holds [null]. *)
Definition slice_array := list (option Range).

(** [a[i]] followed by a property read: [null] and [undefined] both raise. *)
Definition deref (a : option Range) : result Range :=
  match a with
  | Some r => Ok r
  | None => Throw TypeError
  end.

(** [s[i]]: reading past the end gives [undefined], which like [null] has
    no properties. *)
Definition elem (s : slice_array) (i : nat) : option Range :=
  mjoin (s !! i).

(** ** Grid partitioning *)

Record Size := mkSize { sx : Z; sy : Z }.

Section Partition.
(** [this.xsize] and [this.ysize]. *)
Variables xsize ysize : Z.

Definition _getPercentOfScreenAsPixels (pct : Z) (whichDim : lit.axis) : Q :=
  let dim := if lit.axis_eqb whichDim lit.x then xsize else ysize in
  (inject_Z dim * (inject_Z pct / inject_Z lit.num.onehundred))%Q.

Definition _getScreenRangeFromXYPercent (xpct ypct xoffset yoffset : Z) : Range :=
  let xpx := Math_round (_getPercentOfScreenAsPixels xpct lit.x) in
  let ypx := Math_round (_getPercentOfScreenAsPixels ypct lit.y) in
  {| xstart := xoffset; xstop := xoffset + xpx - lit.num.one;
     ystart := yoffset; ystop := yoffset + ypx - lit.num.one |}.

(** The percentage table of [sliceScreen], without its leading [null]. *)
Definition sizes : list Size :=
  let b := 15 in let z := 34 in let m := 2 in
  [ mkSize b b; mkSize z b; mkSize m b; mkSize z b; mkSize b b;
    mkSize b z; mkSize z z; mkSize m z; mkSize z z; mkSize b z;
    mkSize b m; mkSize z m; mkSize m m; mkSize z m; mkSize b m;
    mkSize b z; mkSize z z; mkSize m z; mkSize z z; mkSize b z;
    mkSize b b; mkSize z b; mkSize m b; mkSize z b; mkSize b b ].

(** The cursor [(xoffset, yoffset)] after cell [i] whose freshly computed
    range is [r]. *)
Definition advance (i : nat) (r : Range) (yoffset : Z) : Z * Z :=
  if (Z.of_nat i mod lit.num.five =? lit.num.zero)
  then (lit.num.zero, ystop r + lit.num.one)
  else (xstop r + lit.num.one, yoffset).

(** [if (ret[i].ystop == this.ysize) ret[i].ystop--]. *)
Definition clamp (r : Range) : Range :=
  if ystop r =? ysize then set_ystop r (ystop r - 1) else r.

(** The body of the [for] loop of [sliceScreen], from index [i] on. *)
Fixpoint sliceLoop (cells : list Size) (i : nat) (xoffset yoffset : Z)
  : list Range :=
  match cells with
  | [] => []
  | c :: rest =>
      let r := _getScreenRangeFromXYPercent (sx c) (sy c) xoffset yoffset in
      let '(xoffset', yoffset') := advance i r yoffset in
      clamp r :: sliceLoop rest (S i) xoffset' yoffset'
  end.

Definition sliceScreen : slice_array :=
  None :: (Some <$> sliceLoop sizes 1 lit.num.zero lit.num.zero).
End Partition.

(** ** Metazones *)

(** What a property of [this.meta] can hold: the object returned by
    [_getMergedRange], an array literal of slices, or a member inherited
    from [Object.prototype] (a function or an object; none of them has an
    [xstart], [xstop], [ystart] or [ystop] property). *)
Inductive metaval :=
| MObj (b : Bounds)
| MArr (a : list (option Range))
| MBuiltin.

(** A property read [r.f] for one of the four bound names. *)
Definition field (f : Bounds -> jsnum) (r : metaval) : jsnum :=
  match r with
  | MObj b => f b
  | MArr _ | MBuiltin => JUndefined
  end.

(** The property names every object created by [{}] inherits. *)
Definition objectPrototype : list string :=
  [ "constructor"; "hasOwnProperty"; "isPrototypeOf"; "propertyIsEnumerable";
    "toLocaleString"; "toString"; "valueOf"; "__proto__";
    "__defineGetter__"; "__defineSetter__";
    "__lookupGetter__"; "__lookupSetter__" ]%string.

(** [o[name]] on an object created by [{}]: own properties first, then the
    prototype; [None] is [undefined]. *)
Definition getProp (o : gmap string metaval) (name : string) : option metaval :=
  match o !! name with
  | Some v => Some v
  | None => if decide (name ∈ objectPrototype) then Some MBuiltin else None
  end.

(** One iteration of the loop of [_getMergedRange]. *)
Definition mergeStep (acc : Bounds) (r : Range) : Bounds :=
  let minX := b_xstart acc in let maxX := b_xstop acc in
  let minY := b_ystart acc in let maxY := b_ystop acc in
  let minX := if js_lt (xstart r) minX || is_null minX
              then JNum (xstart r) else minX in
  let maxX := if js_gt (xstop r) maxX || is_null maxX
              then JNum (xstop r) else maxX in
  let minY := if js_lt (ystart r) minY || is_null minY
              then JNum (ystart r) else minY in
  let maxY := if js_gt (ystop r) maxY || is_null maxY
              then JNum (ystop r) else maxY in
  {| b_xstart := minX; b_ystart := minY; b_xstop := maxX; b_ystop := maxY |}.

Fixpoint mergeLoop (ranges : list (option Range)) (acc : Bounds) : result Bounds :=
  match ranges with
  | [] => Ok acc
  | a :: rest => r ← deref a; mergeLoop rest (mergeStep acc r)
  end.

Definition _getMergedRange (ranges : list (option Range)) : result Bounds :=
  mergeLoop ranges (mkBounds JNull JNull JNull JNull).

Definition buildMeta (s : slice_array) : result (gmap string metaval) :=
  let s := elem s in
  let ret : gmap string metaval := ∅ in
  m ← _getMergedRange [s 1; s 2; s 6; s 7; s 11; s 12; s 16; s 17; s 21; s 22]%nat;
  let ret := <["left" := MObj m]> ret in
  m ← _getMergedRange [s 4; s 5; s 9; s 10; s 14; s 15; s 19; s 20; s 24; s 25]%nat;
  let ret := <["right" := MObj m]> ret in
  m ← _getMergedRange [s 1; s 2; s 3; s 4; s 5; s 6; s 7; s 8; s 9; s 10]%nat;
  let ret := <["top" := MObj m]> ret in
  m ← _getMergedRange [s 16; s 17; s 18; s 19; s 20; s 21; s 22; s 23; s 24; s 25]%nat;
  let ret := <["bottom" := MObj m]> ret in
  m ← _getMergedRange [s 1; s 6; s 11; s 16; s 21]%nat;
  let ret := <["l_border" := MObj m]> ret in
  m ← _getMergedRange [s 5; s 10; s 15; s 20; s 25]%nat;
  let ret := <["r_border" := MObj m]> ret in
  m ← _getMergedRange [s 1; s 2; s 3; s 4; s 5]%nat;
  let ret := <["t_border" := MObj m]> ret in
  m ← _getMergedRange [s 21; s 22; s 23; s 24; s 25]%nat;
  let ret := <["b_border" := MObj m]> ret in
  let ret := <["lt_corner" := MArr [s 1%nat]]> ret in
  let ret := <["rt_corner" := MArr [s 5%nat]]> ret in
  let ret := <["lb_corner" := MArr [s 21%nat]]> ret in
  let ret := <["rb_corner" := MArr [s 25%nat]]> ret in
  let ret := <["lt_zone" := MArr [s 7%nat]]> ret in
  let ret := <["rt_zone" := MArr [s 9%nat]]> ret in
  let ret := <["lb_zone" := MArr [s 17%nat]]> ret in
  let ret := <["rb_zone" := MArr [s 19%nat]]> ret in
  let ret := <["center" := MArr [s 13%nat]]> ret in
  m ← _getMergedRange [s 15; s 16; s 17; s 18; s 19; s 20]%nat;
  let ret := <["h_mid" := MObj m]> ret in
  m ← _getMergedRange [s 3; s 8; s 13; s 18; s 23]%nat;
  let ret := <["v_mid" := MObj m]> ret in
  Ok ret.

(** ** Instances and queries *)

Record Slicer25 := mkSlicer25 {
  xsize : Z;
  ysize : Z;
  slices : slice_array;
  meta : gmap string metaval
}.

(** [init] with both dimensions supplied by the caller. *)
Definition init (w h : Z) : result Slicer25 :=
  let s := sliceScreen w h in
  m ← buildMeta s;
  Ok {| xsize := w; ysize := h; slices := s; meta := m |}.

(** Inclusive containment of an integer point, as tested by [whichSlice]. *)
Definition inside (r : Range) (x y : Z) : bool :=
  (xstart r <=? x) && (xstop r >=? x) && (ystart r <=? y) && (ystop r >=? y).

(** The [for] loop of [whichSlice] from index [i] on, [rest] being
    [slices[i..]]; falling off the end returns [undefined]. *)
Fixpoint whichLoop (rest : slice_array) (i : nat) (x y : Z) : result (option nat) :=
  match rest with
  | [] => Ok None
  | a :: rest' =>
      r ← deref a;
      if inside r x y then Ok (Some i) else whichLoop rest' (S i) x y
  end.

Definition whichSlice (this : Slicer25) (xoffset yoffset : Q) : result (option nat) :=
  let xoffset := Math_round xoffset in
  let yoffset := Math_round yoffset in
  whichLoop (drop 1 (slices this)) 1 xoffset yoffset.

(** The method [is]. *)
Definition is_ (this : Slicer25) (metaName : string) (x y : Q) : result bool :=
  match getProp (meta this) metaName with
  | None => Throw TypeError
  | Some r =>
      if js_geq x (field b_xstart r) && js_leq x (field b_xstop r)
         && js_geq y (field b_ystart r) && js_leq y (field b_ystop r)
      then Ok true
      else Ok false
  end.

(** ** The cursor of [sliceScreen] *)





(** ** The vocabulary of the specification *)

(** Row and column (1..5) of slice [i] (1..25) in row-major order. *)
Definition rowOf (i : nat) : nat := ((i - 1) / 5 + 1)%nat.
Definition colOf (i : nat) : nat := ((i - 1) mod 5 + 1)%nat.

(** The proportions along either axis: border, zone, mid, zone, border. *)
Definition proportions : list Z := [15; 34; 2; 34; 15].


(** [round(percent/100 * dimension)] on an integer dimension. *)
Definition px (dim pct : Z) : Z := (dim * pct + 50) / 100.

(** Pixels taken by the first [k] rows or columns. *)
Definition extent (dim : Z) (k : nat) : Z :=
  foldr Z.add 0 (px dim <$> take k proportions).

(** The range of cell [i] by row and column. *)
Definition cellRange (w h : Z) (i : nat) : Range :=
  {| xstart := extent w (colOf i - 1); xstop := extent w (colOf i) - 1;
     ystart := extent h (rowOf i - 1); ystop := extent h (rowOf i) - 1 |}.

(** The bounding box of two ranges, and of a non-empty list of ranges:
    the least start and the greatest stop on each axis. *)
Definition hull (a b : Range) : Range :=
  {| xstart := Z.min (xstart a) (xstart b); xstop := Z.max (xstop a) (xstop b);
     ystart := Z.min (ystart a) (ystart b); ystop := Z.max (ystop a) (ystop b) |}.

Definition bbox (r : Range) (rs : list Range) : Range := foldl hull r rs.

(** A range as the object [_getMergedRange] returns. *)
Definition boundsOf (r : Range) : Bounds :=
  {| b_xstart := JNum (xstart r); b_ystart := JNum (ystart r);
     b_xstop := JNum (xstop r); b_ystop := JNum (ystop r) |}.

(** The slices of an array whose index (1..25) satisfies [p], in index
    order. *)
Definition slicesWhere (p : nat -> bool) (s : slice_array) : list Range :=
  omap (elem s) (filter (fun i => p i = true) (seq 1 25)).

(** The bounding-box union of the slices selected by [p], as a metazone
    entry; [None] when [p] selects nothing. *)
Definition unionWhere (p : nat -> bool) (s : slice_array) : option metaval :=
  match slicesWhere p s with
  | [] => None
  | r :: rs => Some (MObj (boundsOf (bbox r rs)))
  end.

Definition colIn (cs : list nat) (i : nat) : bool := bool_decide (colOf i ∈ cs).
Definition rowIn (rs : list nat) (i : nat) : bool := bool_decide (rowOf i ∈ rs).

(** The metazone names listed in the glossary of the specification. *)
Definition vocabulary : list string :=
  [ "left"; "right"; "top"; "bottom";
    "l_border"; "r_border"; "t_border"; "b_border";
    "v_mid"; "h_mid";
    "lt_corner"; "rt_corner"; "lb_corner"; "rb_corner";
    "lt_zone"; "rt_zone"; "lb_zone"; "rb_zone";
    "center" ]%string.

(** What [buildMeta] stores under each name, for the slice array [s]. *)
Definition between (lo hi : nat) (i : nat) : bool := ((lo <=? i) && (i <=? hi))%nat.

Record metaOf (s : slice_array) (m : gmap string metaval) : Prop := {
  meta_left : m !! "left" = unionWhere (colIn [1; 2]%nat) s;
  meta_right : m !! "right" = unionWhere (colIn [4; 5]%nat) s;
  meta_top : m !! "top" = unionWhere (rowIn [1; 2]%nat) s;
  meta_bottom : m !! "bottom" = unionWhere (rowIn [4; 5]%nat) s;
  meta_l_border : m !! "l_border" = unionWhere (colIn [1]%nat) s;
  meta_r_border : m !! "r_border" = unionWhere (colIn [5]%nat) s;
  meta_t_border : m !! "t_border" = unionWhere (rowIn [1]%nat) s;
  meta_b_border : m !! "b_border" = unionWhere (rowIn [5]%nat) s;
  meta_v_mid : m !! "v_mid" = unionWhere (colIn [3]%nat) s;
  meta_h_mid : m !! "h_mid" = unionWhere (between 15 20) s;
  meta_lt_corner : m !! "lt_corner" = Some (MArr [elem s 1]);
  meta_rt_corner : m !! "rt_corner" = Some (MArr [elem s 5]);
  meta_lb_corner : m !! "lb_corner" = Some (MArr [elem s 21]);
  meta_rb_corner : m !! "rb_corner" = Some (MArr [elem s 25]);
  meta_lt_zone : m !! "lt_zone" = Some (MArr [elem s 7]);
  meta_rt_zone : m !! "rt_zone" = Some (MArr [elem s 9]);
  meta_lb_zone : m !! "lb_zone" = Some (MArr [elem s 17]);
  meta_rb_zone : m !! "rb_zone" = Some (MArr [elem s 19]);
  meta_center : m !! "center" = Some (MArr [elem s 13]);
  meta_names : forall name : string, m !! name = None <-> name ∉ vocabulary
}.

(** Inclusive containment of an integer point on all four bounds. *)
Definition contains (r : Range) (x y : Z) : Prop :=
  xstart r <= x <= xstop r /\ ystart r <= y <= ystop r.

(** Exact inclusive containment of a rational point, as tested by [is]. *)
Definition within (r : Range) (x y : Q) : bool :=
  Qle_bool (inject_Z (xstart r)) x && Qle_bool x (inject_Z (xstop r))
  && Qle_bool (inject_Z (ystart r)) y && Qle_bool y (inject_Z (ystop r)).

(** The instance [init] builds for a surface on which it does not raise. *)
Definition instanceOf (w h : Z) (this : Slicer25) : Prop := init w h = Ok this.

(** ** The constructor *)






(** ** Vocabulary of the further properties *)

(** [b] encloses [c] on both axes. *)
Definition encloses (b c : Range) : Prop :=
  xstart b <= xstart c /\ xstop c <= xstop b
  /\ ystart b <= ystart c /\ ystop c <= ystop b.

(** The index lists [buildMeta] hands to [_getMergedRange], by name. *)
Definition mergedZones : list (string * list nat) :=
  [ ("left", [1; 2; 6; 7; 11; 12; 16; 17; 21; 22]);
    ("right", [4; 5; 9; 10; 14; 15; 19; 20; 24; 25]);
    ("top", [1; 2; 3; 4; 5; 6; 7; 8; 9; 10]);
    ("bottom", [16; 17; 18; 19; 20; 21; 22; 23; 24; 25]);
    ("l_border", [1; 6; 11; 16; 21]);
    ("r_border", [5; 10; 15; 20; 25]);
    ("t_border", [1; 2; 3; 4; 5]);
    ("b_border", [21; 22; 23; 24; 25]);
    ("h_mid", [15; 16; 17; 18; 19; 20]);
    ("v_mid", [3; 8; 13; 18; 23]) ]%nat%string.





Ltac Zify.zify_post_hook ::= Z.to_euclidean_division_equations.

(** * Supporting lemmas *)

(** ** Rounding *)

Lemma Math_round_frac (n : Z) : Math_round (n # 100) = (n + 50) / 100.
Proof.
  unfold Math_round.
  rewrite (Qfloor_comp _ ((n + 50) # 100)); [reflexivity|].
  unfold Qeq, Qplus; simpl. lia.
Qed.

(** [Math.round] of the percentage of a dimension is [px]. *)
Lemma percent_px xs ys pct d :
  Math_round (_getPercentOfScreenAsPixels xs ys pct d)
  = px (if lit.axis_eqb d lit.x then xs else ys) pct.
Proof.
  unfold _getPercentOfScreenAsPixels, px.
  set (dim := if lit.axis_eqb d lit.x then xs else ys).
  rewrite <- Math_round_frac. unfold Math_round.
  apply Qfloor_comp.
  unfold Qeq, Qplus, Qmult, Qdiv, Qinv, inject_Z, lit.num.onehundred; simpl.
  lia.
Qed.


(** [Math.round q] is [z] exactly when [q] lies in [[z - 1/2, z + 1/2)]. *)
Lemma Math_round_iff (a : Z) (b : positive) (z : Z) :
  Math_round (a # b) = z
  <-> 2 * z * Zpos b - Zpos b <= 2 * a < 2 * z * Zpos b + Zpos b.
Proof.
  unfold Math_round, Qplus, Qfloor; simpl.
  rewrite Pos2Z.inj_mul. nia.
Qed.

Lemma Math_round_nearest (q : Q) :
  (inject_Z (Math_round q) - (1 # 2) <= q < inject_Z (Math_round q) + (1 # 2))%Q.
Proof.
  destruct q as [a b].
  destruct (proj1 (Math_round_iff a b _) eq_refl) as [Hl Hu].
  set (z := Math_round (a # b)) in *. clearbody z.
  unfold Qle, Qlt, Qminus, Qplus, Qopp, inject_Z; simpl.
  rewrite ?Pos2Z.inj_mul. split; nia.
Qed.


(** ** The partition in closed form *)

Lemma range_px w h xp yp xo yo :
  _getScreenRangeFromXYPercent w h xp yp xo yo
  = mkRange xo (xo + px w xp - 1) yo (yo + px h yp - 1).
Proof. unfold _getScreenRangeFromXYPercent. rewrite !percent_px. reflexivity. Qed.

Lemma sliceLoop_cons w h c rest i xo yo :
  sliceLoop w h (c :: rest) i xo yo =
  let r := mkRange xo (xo + px w (sx c) - 1) yo (yo + px h (sy c) - 1) in
  clamp h r :: sliceLoop w h rest (S i) (advance i r yo).1 (advance i r yo).2.
Proof. simpl. rewrite range_px. destruct (advance _ _ _); reflexivity. Qed.


(** Decides the row test of [advance] at a literal index. *)
Ltac advance_at :=
  match goal with
  | |- context [advance ?i ?r ?yo] =>
      let b := eval vm_compute in (Z.of_nat i mod lit.num.five =? lit.num.zero) in
      change (advance i r yo) with
        (if b then (lit.num.zero, ystop r + lit.num.one)
         else (xstop r + lit.num.one, yo));
      cbv iota; cbn [fst snd xstop ystop]
  end.

Ltac eval_index f :=
  repeat match goal with
  | |- context [f ?i] =>
      let v := eval vm_compute in (f i) in change (f i) with v
  end.

Ltac unfold_extent :=
  cbn [Nat.sub extent foldr fmap list_fmap take firstn proportions].

Lemma sliceLoop_closed w h :
  sliceLoop w h sizes 1 0 0 = (fun i => clamp h (cellRange w h i)) <$> seq 1 25.
Proof.
  unfold sizes.
  do 25 (rewrite sliceLoop_cons; cbv zeta; cbn [sx sy]; advance_at).
  unfold lit.num.zero, lit.num.one.
  cbn [sliceLoop seq fmap list_fmap]. unfold cellRange.
  eval_index colOf. eval_index rowOf. unfold_extent.
  repeat (f_equal; [ f_equal; f_equal; lia | ]).
  f_equal. f_equal. f_equal; lia.
Qed.

Lemma sliceScreen_closed w h :
  sliceScreen w h
  = None :: (Some <$> ((fun i => clamp h (cellRange w h i)) <$> seq 1 25)).
Proof. unfold sliceScreen. f_equal. f_equal. apply sliceLoop_closed. Qed.

Lemma elem_sliceScreen w h i :
  (1 <= i <= 25)%nat ->
  elem (sliceScreen w h) i = Some (clamp h (cellRange w h i)).
Proof.
  intros Hi. rewrite sliceScreen_closed. unfold elem.
  destruct i as [|k]; [lia|].
  match goal with |- context [(None :: ?l) !! S k] =>
    change ((None :: l) !! S k) with (l !! k) end.
  rewrite !list_lookup_fmap, lookup_seq_lt by lia.
  reflexivity.
Qed.

Lemma elem_sliceScreen_out w h i :
  ~ (1 <= i <= 25)%nat -> elem (sliceScreen w h) i = None.
Proof.
  intros Hi. rewrite sliceScreen_closed. unfold elem.
  destruct i as [|k]; [reflexivity|].
  match goal with |- context [(None :: ?l) !! S k] =>
    change ((None :: l) !! S k) with (l !! k) end.
  rewrite !list_lookup_fmap, lookup_seq_ge by lia.
  reflexivity.
Qed.






Lemma rowOf_bounds i : (1 <= i <= 25)%nat -> (1 <= rowOf i <= 5)%nat.
Proof. unfold rowOf. lia. Qed.

Lemma colOf_bounds i : (1 <= i <= 25)%nat -> (1 <= colOf i <= 5)%nat.
Proof. unfold colOf. lia. Qed.




(** ** Merging *)

Lemma mergeStep_first r :
  mergeStep (mkBounds JNull JNull JNull JNull) r = boundsOf r.
Proof.
  unfold mergeStep; cbn [b_xstart b_xstop b_ystart b_ystop is_null].
  rewrite !orb_true_r. reflexivity.
Qed.

Lemma mergeStep_hull a r : mergeStep (boundsOf a) r = boundsOf (hull a r).
Proof.
  unfold mergeStep, boundsOf, hull, js_lt, js_gt.
  cbn [b_xstart b_xstop b_ystart b_ystop is_null toNumber
       xstart xstop ystart ystop].
  rewrite !orb_false_r.
  repeat match goal with
  | |- context [?a <? ?b] => destruct (Z.ltb_spec a b)
  | |- context [?a >? ?b] => rewrite (Z.gtb_ltb a b); destruct (Z.ltb_spec b a)
  end; repeat f_equal; lia.
Qed.

Lemma mergeLoop_bbox a rs :
  mergeLoop (Some <$> rs) (boundsOf a) = Ok (boundsOf (bbox a rs)).
Proof.
  revert a. induction rs as [|r rs IH]; intros a; [reflexivity|].
  cbn [fmap list_fmap mergeLoop deref mbind result_bind].
  rewrite mergeStep_hull. apply IH.
Qed.

(** [_getMergedRange] is the bounding box of a non-empty list of ranges. *)
Lemma _getMergedRange_bbox r rs :
  _getMergedRange (Some <$> (r :: rs)) = Ok (boundsOf (bbox r rs)).
Proof.
  unfold _getMergedRange.
  cbn [fmap list_fmap mergeLoop deref mbind result_bind].
  rewrite mergeStep_first. apply mergeLoop_bbox.
Qed.

Ltac merge_head :=
  match goal with
  | |- context [_getMergedRange (Some ?r :: ?l)] =>
      change (_getMergedRange (Some r :: l)) with
        (mergeLoop l (mergeStep (mkBounds JNull JNull JNull JNull) r));
      rewrite mergeStep_first;
      repeat (cbn [mergeLoop deref mbind result_bind]; rewrite mergeStep_hull);
      cbn [mergeLoop deref mbind result_bind]
  end.

Lemma buildMeta_spec (rs : list Range) :
  length rs = 25%nat ->
  exists m, buildMeta (None :: (Some <$> rs)) = Ok m
            /\ metaOf (None :: (Some <$> rs)) m.
Proof.
  intros Hlen.
  do 25 (destruct rs as [|? rs]; [discriminate Hlen|]).
  destruct rs; [clear Hlen|discriminate Hlen].
  unfold buildMeta.
  cbn [fmap list_fmap elem lookup list_lookup mjoin option_join].
  do 10 merge_head.
  eexists; split; [reflexivity|].
  split; try reflexivity.
  intros name. unfold vocabulary.
  rewrite !lookup_insert_None, lookup_empty, !not_elem_of_cons, elem_of_nil.
  intuition congruence.
Qed.

(** [init] never raises, and its instance holds the partition and the
    metazones built from it. *)
Lemma init_spec w h :
  exists m, init w h = Ok (mkSlicer25 w h (sliceScreen w h) m)
            /\ metaOf (sliceScreen w h) m.
Proof.
  destruct (buildMeta_spec (sliceLoop w h sizes 1 0 0)) as (m & Hm & Hspec).
  { rewrite sliceLoop_closed, length_fmap. reflexivity. }
  change (None :: (Some <$> sliceLoop w h sizes 1 0 0))
    with (sliceScreen w h) in Hm, Hspec.
  exists m. split; [|exact Hspec].
  unfold init. rewrite Hm. reflexivity.
Qed.

Lemma instanceOf_inv w h this :
  instanceOf w h this ->
  xsize this = w /\ ysize this = h /\ slices this = sliceScreen w h
  /\ metaOf (sliceScreen w h) (meta this).
Proof.
  unfold instanceOf. intros Hinit.
  destruct (init_spec w h) as (m & Hm & Hspec).
  rewrite Hm in Hinit. injection Hinit as <-. auto.
Qed.

Lemma instanceOf_exists w h : exists this, instanceOf w h this.
Proof. destruct (init_spec w h) as (m & Hm & _). eexists; exact Hm. Qed.

(** ** The scan of [whichSlice] *)

Lemma inside_contains r x y : inside r x y = true <-> contains r x y.
Proof. unfold inside, contains. rewrite !andb_true_iff. lia. Qed.

Lemma inside_not_contains r x y : inside r x y = false <-> ~ contains r x y.
Proof. rewrite <- inside_contains. destruct (inside r x y); intuition congruence. Qed.

(** On an array without holes the scan never raises; it stops at the first
    range containing the point and otherwise falls off the end. *)
Lemma whichLoop_spec rs i x y :
  (exists k r, whichLoop (Some <$> rs) i x y = Ok (Some (i + k)%nat)
     /\ rs !! k = Some r /\ contains r x y
     /\ forall j rj, (j < k)%nat -> rs !! j = Some rj -> ~ contains rj x y)
  \/ (whichLoop (Some <$> rs) i x y = Ok None
     /\ forall j rj, rs !! j = Some rj -> ~ contains rj x y).
Proof.
  revert i. induction rs as [|r rs IH]; intros i.
  - right. split; [reflexivity|]. intros j rj Hj. discriminate Hj.
  - cbn [fmap list_fmap whichLoop deref mbind result_bind].
    destruct (inside r x y) eqn:Hin.
    + left. exists 0%nat, r. rewrite Nat.add_0_r.
      split; [reflexivity|]. split; [reflexivity|].
      split; [apply inside_contains; assumption|]. intros; lia.
    + apply inside_not_contains in Hin.
      destruct (IH (S i)) as [(k & rk & Hres & Hk & Hc & Hfirst)|[Hres Hnone]].
      * left. exists (S k), rk. rewrite Nat.add_succ_r.
        split; [exact Hres|]. split; [exact Hk|]. split; [exact Hc|].
        intros [|j] rj Hlt Hj; [injection Hj as <-; exact Hin|].
        apply (Hfirst j); [lia|exact Hj].
      * right. split; [exact Hres|].
        intros [|j] rj Hj; [injection Hj as <-; exact Hin|].
        apply (Hnone j); exact Hj.
Qed.

Lemma elem_cons_fmap (rs : list Range) i :
  elem (None :: (Some <$> rs)) (S i) = rs !! i.
Proof.
  unfold elem.
  change ((None :: (Some <$> rs)) !! S i) with ((Some <$> rs) !! i).
  rewrite list_lookup_fmap. destruct (rs !! i); reflexivity.
Qed.

(** The same statement for the instance built on a [w] by [h] surface,
    with 1-based indices. *)
Lemma whichSlice_spec w h this x y :
  instanceOf w h this ->
  let X := Math_round x in
  let Y := Math_round y in
  (exists i r, whichSlice this x y = Ok (Some i)
     /\ (1 <= i <= 25)%nat /\ elem (slices this) i = Some r /\ contains r X Y
     /\ forall j rj, (j < i)%nat -> elem (slices this) j = Some rj ->
          ~ contains rj X Y)
  \/ (whichSlice this x y = Ok None
     /\ forall j rj, elem (slices this) j = Some rj -> ~ contains rj X Y).
Proof.
  intros Hthis X Y.
  destruct (instanceOf_inv _ _ _ Hthis) as (_ & _ & Hs & _).
  unfold whichSlice. fold X Y. rewrite Hs, sliceScreen_closed.
  set (rs := (fun i => clamp h (cellRange w h i)) <$> seq 1 25).
  change (drop 1 (None :: (Some <$> rs))) with (Some <$> rs).
  assert (Hlen : length rs = 25%nat) by (unfold rs; rewrite length_fmap; reflexivity).
  destruct (whichLoop_spec rs 1 X Y) as [(k & r & Hres & Hk & Hc & Hfirst)|[Hres Hnone]].
  - left. exists (S k), r. split; [exact Hres|].
    pose proof (lookup_lt_Some _ _ _ Hk). split; [lia|].
    rewrite elem_cons_fmap. split; [exact Hk|]. split; [exact Hc|].
    intros [|j] rj Hlt Hj; [discriminate Hj|].
    rewrite elem_cons_fmap in Hj. apply (Hfirst j); [lia|exact Hj].
  - right. split; [exact Hres|].
    intros [|j] rj Hj; [discriminate Hj|].
    rewrite elem_cons_fmap in Hj. apply (Hnone j); exact Hj.
Qed.

(** A point no slice contains is not found. *)
Lemma whichSlice_none w h this x y :
  instanceOf w h this ->
  (forall j rj, elem (slices this) j = Some rj ->
     ~ contains rj (Math_round x) (Math_round y)) ->
  whichSlice this x y = Ok None.
Proof.
  intros Hthis Hnone.
  destruct (whichSlice_spec w h this x y Hthis)
    as [(i & r & _ & _ & Hi & Hc & _)|[Hres _]]; [|exact Hres].
  destruct (Hnone i r Hi Hc).
Qed.

(** ** Geometry of the grid *)

Ltac band_cases c :=
  destruct c as [|[|[|[|[|[|c]]]]]]; try (exfalso; lia); try lia.

Ltac solve_extent := unfold_extent; unfold px in *; lia.

Lemma extent_mono d a b :
  0 <= d -> (a <= b <= 5)%nat -> extent d a <= extent d b.
Proof. intros Hd Hab. band_cases a; band_cases b; solve_extent. Qed.



Lemma band_exists d x :
  0 <= x < extent d 5 ->
  exists c, (1 <= c <= 5)%nat /\ extent d (c - 1) <= x < extent d c.
Proof.
  intros Hx.
  destruct (Z_lt_dec x (extent d 1)); [exists 1%nat; split; [lia|]; revert Hx l; solve_extent|].
  destruct (Z_lt_dec x (extent d 2)); [exists 2%nat; split; [lia|]; revert Hx n l; solve_extent|].
  destruct (Z_lt_dec x (extent d 3)); [exists 3%nat; split; [lia|]; revert Hx n0 l; solve_extent|].
  destruct (Z_lt_dec x (extent d 4)); [exists 4%nat; split; [lia|]; revert Hx n1 l; solve_extent|].
  exists 5%nat; split; [lia|]. revert Hx n2; solve_extent.
Qed.

Lemma clamp_xstart h r : xstart (clamp h r) = xstart r.
Proof. unfold clamp. destruct (_ =? _); reflexivity. Qed.

Lemma clamp_xstop h r : xstop (clamp h r) = xstop r.
Proof. unfold clamp. destruct (_ =? _); reflexivity. Qed.

Lemma clamp_ystart h r : ystart (clamp h r) = ystart r.
Proof. unfold clamp. destruct (_ =? _); reflexivity. Qed.

Lemma clamp_ystop h r :
  ystop (clamp h r) = if ystop r =? h then ystop r - 1 else ystop r.
Proof. unfold clamp. destruct (_ =? _); reflexivity. Qed.

Lemma clamp_ystop_cases h r :
  (ystop r = h /\ ystop (clamp h r) = h - 1)
  \/ (ystop r <> h /\ ystop (clamp h r) = ystop r).
Proof. rewrite clamp_ystop. destruct (Z.eqb_spec (ystop r) h); lia. Qed.

(** A point of a stored slice lies in the band of its column and of its
    row. *)
Lemma contains_bands w h i x y :
  contains (clamp h (cellRange w h i)) x y ->
  extent w (colOf i - 1) <= x < extent w (colOf i)
  /\ extent h (rowOf i - 1) <= y < extent h (rowOf i).
Proof.
  unfold contains.
  rewrite clamp_xstart, clamp_xstop, clamp_ystart.
  destruct (clamp_ystop_cases h (cellRange w h i)) as [[E ->]|[E ->]];
    cbn [cellRange xstart xstop ystart ystop] in *; lia.
Qed.




Lemma whichSlice_slices this x y :
  whichSlice this x y
  = whichLoop (drop 1 (slices this)) 1 (Math_round x) (Math_round y).
Proof. reflexivity. Qed.

(** Introduces the instance of a [w] by [h] surface with its slice array
    rewritten to [sliceScreen w h], ready to be evaluated. *)
Ltac on_instance w h :=
  let this := fresh "this" in
  let Hthis := fresh "Hthis" in
  let Hs := fresh "Hs" in
  let Hm := fresh "Hm" in
  destruct (instanceOf_exists w h) as [this Hthis];
  destruct (instanceOf_inv _ _ _ Hthis) as (_ & _ & Hs & Hm);
  exists this; split; [exact Hthis|];
  rewrite ?whichSlice_slices, ?Hs.







(** ** Metazones and [is] *)

Lemma within_spec r x y :
  within r x y = true
  <-> (inject_Z (xstart r) <= x <= inject_Z (xstop r))%Q
      /\ (inject_Z (ystart r) <= y <= inject_Z (ystop r))%Q.
Proof.
  unfold within. rewrite !andb_true_iff, !Qle_bool_iff. tauto.
Qed.

(** On a merged entry [is] compares the coordinates, as given, with the
    four bounds. *)
Lemma is_merged this name r x y :
  meta this !! name = Some (MObj (boundsOf r)) ->
  is_ this name x y = Ok (within r x y).
Proof.
  intros Hm. unfold is_, getProp. rewrite Hm.
  cbn [field boundsOf b_xstart b_xstop b_ystart b_ystop].
  unfold js_geq, js_leq; cbn [toNumber]. fold (within r x y).
  destruct (within r x y); reflexivity.
Qed.

(** On an entry holding an array the four bounds are [undefined] and [is]
    answers [false]. *)
Lemma is_array this name a x y :
  meta this !! name = Some (MArr a) -> is_ this name x y = Ok false.
Proof. intros Hm. unfold is_, getProp. rewrite Hm. reflexivity. Qed.

Lemma is_inherited this name x y :
  meta this !! name = None -> name ∈ objectPrototype ->
  is_ this name x y = Ok false.
Proof.
  intros Hm Hp. unfold is_, getProp. rewrite Hm.
  rewrite decide_True by exact Hp. reflexivity.
Qed.

Lemma is_raises this name x y :
  is_ this name x y = Throw TypeError
  <-> meta this !! name = None /\ (name ∉ objectPrototype).
Proof.
  unfold is_, getProp. destruct (meta this !! name) as [v|].
  - split; [|intros [? _]; discriminate].
    destruct (_ && _); discriminate.
  - destruct (decide (name ∈ objectPrototype)) as [Hp|Hp].
    + split; [destruct (_ && _); discriminate|tauto].
    + tauto.
Qed.

Lemma slicesWhere_cells (p : nat -> bool) (f : nat -> Range) :
  slicesWhere p (None :: (Some <$> (f <$> seq 1 25)))
  = f <$> filter (fun i => p i = true) (seq 1 25).
Proof.
  unfold slicesWhere.
  assert (Hall : Forall (fun i => (1 <= i <= 25)%nat)
                   (filter (fun i => p i = true) (seq 1 25))).
  { apply Forall_forall. intros i Hi.
    apply list_elem_of_filter in Hi as [_ Hi]. apply elem_of_seq in Hi. lia. }
  induction Hall as [|i l Hi _ IH]; [reflexivity|].
  cbn [omap list_omap fmap list_fmap]. rewrite <- IH.
  destruct i as [|k]; [lia|]. rewrite elem_cons_fmap.
  rewrite list_lookup_fmap, lookup_seq_lt by lia. reflexivity.
Qed.

(** Evaluates the index selection of a bounding-box union over the closed
    form of the partition. *)
Ltac union_cells :=
  rewrite ?sliceScreen_closed; unfold unionWhere;
  rewrite ?slicesWhere_cells;
  repeat match goal with
  | |- context [filter ?p (seq 1 25)] =>
      let l := eval vm_compute in (filter p (seq 1 25)) in
      change (filter p (seq 1 25)) with l
  end;
  cbn [fmap list_fmap].

(** ** Bounding boxes *)

Lemma bbox_cons r a rs : bbox r (a :: rs) = bbox (hull r a) rs.
Proof. reflexivity. Qed.

(** The bounding box encloses every range of the list. *)
Lemma bbox_encloses r rs c :
  c ∈ r :: rs ->
  xstart (bbox r rs) <= xstart c /\ xstop c <= xstop (bbox r rs)
  /\ ystart (bbox r rs) <= ystart c /\ ystop c <= ystop (bbox r rs).
Proof.
  revert r c. induction rs as [|a rs IH]; intros r c Hc.
  - apply list_elem_of_singleton in Hc as ->. cbn. lia.
  - rewrite bbox_cons.
    pose proof (IH (hull r a) (hull r a) (list_elem_of_here _ _)) as Hh.
    cbn [hull xstart xstop ystart ystop] in Hh.
    apply elem_of_cons in Hc as [->|Hc]; [lia|].
    apply elem_of_cons in Hc as [->|Hc]; [lia|].
    apply IH. apply list_elem_of_further. exact Hc.
Qed.

(** Each of its bounds is the bound of some range of the list. *)
Lemma bbox_tight r rs :
  Exists (fun c => xstart c = xstart (bbox r rs)) (r :: rs)
  /\ Exists (fun c => xstop c = xstop (bbox r rs)) (r :: rs)
  /\ Exists (fun c => ystart c = ystart (bbox r rs)) (r :: rs)
  /\ Exists (fun c => ystop c = ystop (bbox r rs)) (r :: rs).
Proof.
  revert r. induction rs as [|a rs IH]; intros r.
  - repeat split; apply Exists_cons_hd; reflexivity.
  - rewrite bbox_cons. destruct (IH (hull r a)) as (Hx & HX & Hy & HY).
    repeat split.
    + apply Exists_cons in Hx as [Hx|Hx]; [|do 2 apply Exists_cons_tl; exact Hx].
      cbn [hull xstart] in Hx.
      destruct (Z.min_spec (xstart r) (xstart a)) as [[_ E]|[_ E]]; rewrite E in Hx.
      * apply Exists_cons_hd; exact Hx.
      * apply Exists_cons_tl, Exists_cons_hd; exact Hx.
    + apply Exists_cons in HX as [HX|HX]; [|do 2 apply Exists_cons_tl; exact HX].
      cbn [hull xstop] in HX.
      destruct (Z.max_spec (xstop r) (xstop a)) as [[_ E]|[_ E]]; rewrite E in HX.
      * apply Exists_cons_tl, Exists_cons_hd; exact HX.
      * apply Exists_cons_hd; exact HX.
    + apply Exists_cons in Hy as [Hy|Hy]; [|do 2 apply Exists_cons_tl; exact Hy].
      cbn [hull ystart] in Hy.
      destruct (Z.min_spec (ystart r) (ystart a)) as [[_ E]|[_ E]]; rewrite E in Hy.
      * apply Exists_cons_hd; exact Hy.
      * apply Exists_cons_tl, Exists_cons_hd; exact Hy.
    + apply Exists_cons in HY as [HY|HY]; [|do 2 apply Exists_cons_tl; exact HY].
      cbn [hull ystop] in HY.
      destruct (Z.max_spec (ystop r) (ystop a)) as [[_ E]|[_ E]]; rewrite E in HY.
      * apply Exists_cons_tl, Exists_cons_hd; exact HY.
      * apply Exists_cons_hd; exact HY.
Qed.

Section BboxBounds.
Variables (r : Range) (rs : list Range) (v : Z).




End BboxBounds.



(** The names [is] can look up without raising: the names [buildMeta]
    stores and the names inherited from [Object.prototype]. *)
Lemma is_raises_iff w h this name x y :
  instanceOf w h this ->
  is_ this name x y = Throw TypeError
  <-> (name ∉ vocabulary) /\ (name ∉ objectPrototype).
Proof.
  intros Hthis. destruct (instanceOf_inv _ _ _ Hthis) as (_ & _ & _ & Hm).
  rewrite is_raises, (meta_names _ _ Hm). reflexivity.
Qed.

(** The ten names stored through [_getMergedRange]. *)
Lemma merged_entries w h this name :
  instanceOf w h this ->
  name ∈ ["left"; "right"; "top"; "bottom"; "l_border"; "r_border";
          "t_border"; "b_border"; "h_mid"; "v_mid"]%string ->
  exists r, meta this !! name = Some (MObj (boundsOf r)).
Proof.
  intros Hthis Hname.
  destruct (instanceOf_inv _ _ _ Hthis) as (_ & _ & _ & Hm).
  rewrite !elem_of_cons, elem_of_nil in Hname.
  repeat (destruct Hname as [->|Hname]); [..|destruct Hname].
  - rewrite (meta_left _ _ Hm). union_cells. eexists; reflexivity.
  - rewrite (meta_right _ _ Hm). union_cells. eexists; reflexivity.
  - rewrite (meta_top _ _ Hm). union_cells. eexists; reflexivity.
  - rewrite (meta_bottom _ _ Hm). union_cells. eexists; reflexivity.
  - rewrite (meta_l_border _ _ Hm). union_cells. eexists; reflexivity.
  - rewrite (meta_r_border _ _ Hm). union_cells. eexists; reflexivity.
  - rewrite (meta_t_border _ _ Hm). union_cells. eexists; reflexivity.
  - rewrite (meta_b_border _ _ Hm). union_cells. eexists; reflexivity.
  - rewrite (meta_h_mid _ _ Hm). union_cells. eexists; reflexivity.
  - rewrite (meta_v_mid _ _ Hm). union_cells. eexists; reflexivity.
Qed.

(** * The claims of the specification *)

(** C1 (the source departs from the claim).  [buildMeta] stores each
    single-cell metazone as a one-element array holding the slice, not as
    the slice itself, so [is] reads [undefined] bounds and answers [false]
    at every point: on the 1000 by 1000 surface [whichSlice(500,500)] is 13
    but [is('center',500,500)] is false, and [whichSlice(0,0)] is 1 but
    [is('lt_corner',0,0)] is false. *)
Theorem single_cell_entries_are_arrays (w h : Z) (x y : Q) :
  exists this, init w h = Ok this
    /\ meta this !! "center" = Some (MArr [elem (slices this) 13])
    /\ meta this !! "lt_corner" = Some (MArr [elem (slices this) 1])
    /\ meta this !! "rt_corner" = Some (MArr [elem (slices this) 5])
    /\ meta this !! "lb_corner" = Some (MArr [elem (slices this) 21])
    /\ meta this !! "rb_corner" = Some (MArr [elem (slices this) 25])
    /\ is_ this "center" x y = Ok false
    /\ is_ this "lt_corner" x y = Ok false
    /\ is_ this "rt_corner" x y = Ok false
    /\ is_ this "lb_corner" x y = Ok false
    /\ is_ this "rb_corner" x y = Ok false
    /\ exists this', init 1000 1000 = Ok this'
         /\ whichSlice this' 500 500 = Ok (Some 13%nat)
         /\ is_ this' "center" 500 500 = Ok false
         /\ whichSlice this' 0 0 = Ok (Some 1%nat)
         /\ is_ this' "lt_corner" 0 0 = Ok false.
Proof.
  destruct (instanceOf_exists w h) as [this Hthis].
  destruct (instanceOf_inv _ _ _ Hthis) as (_ & _ & Hs & Hm).
  exists this. split; [exact Hthis|]. rewrite Hs.
  pose proof (meta_center _ _ Hm) as Hc.
  pose proof (meta_lt_corner _ _ Hm) as H1.
  pose proof (meta_rt_corner _ _ Hm) as H5.
  pose proof (meta_lb_corner _ _ Hm) as H21.
  pose proof (meta_rb_corner _ _ Hm) as H25.
  rewrite (is_array _ _ _ x y Hc), (is_array _ _ _ x y H1),
    (is_array _ _ _ x y H5), (is_array _ _ _ x y H21), (is_array _ _ _ x y H25).
  do 10 (split; [assumption || reflexivity|]).
  destruct (instanceOf_exists 1000 1000) as [this' Hthis'].
  destruct (instanceOf_inv _ _ _ Hthis') as (_ & _ & Hs' & Hm').
  exists this'. split; [exact Hthis'|].
  rewrite (is_array _ _ _ _ _ (meta_center _ _ Hm')),
    (is_array _ _ _ _ _ (meta_lt_corner _ _ Hm')).
  rewrite !whichSlice_slices, Hs'. vm_compute. auto.
Qed.

(** C2 (the source departs from the claim).  [buildMeta] merges slices
    15..20 into [h_mid], that is the last slice of row 3 and all of row 4,
    not the slices 11..15 of row 3; [v_mid] is the union of column 3.  On
    the 1000 by 1000 surface [h_mid] spans y from 490 to 849 where row 3
    spans 490 to 509, so [is('h_mid',100,600)] is true for a point of slice
    16; [is('v_mid',500,10)] is true. *)
Theorem h_mid_merges_row_four (w h : Z) :
  exists this, init w h = Ok this
    /\ meta this !! "h_mid" = unionWhere (between 15 20) (slices this)
    /\ meta this !! "v_mid" = unionWhere (colIn [3]%nat) (slices this)
    /\ exists this', init 1000 1000 = Ok this'
         /\ meta this' !! "h_mid" = Some (MObj (boundsOf (mkRange 0 999 490 849)))
         /\ unionWhere (rowIn [3]%nat) (slices this')
            = Some (MObj (boundsOf (mkRange 0 999 490 509)))
         /\ meta this' !! "h_mid" <> unionWhere (rowIn [3]%nat) (slices this')
         /\ whichSlice this' 100 600 = Ok (Some 16%nat)
         /\ is_ this' "h_mid" 100 600 = Ok true
         /\ meta this' !! "v_mid" = Some (MObj (boundsOf (mkRange 490 509 0 999)))
         /\ is_ this' "v_mid" 500 10 = Ok true.
Proof.
  destruct (instanceOf_exists w h) as [this Hthis].
  destruct (instanceOf_inv _ _ _ Hthis) as (_ & _ & Hs & Hm).
  exists this. split; [exact Hthis|]. rewrite Hs.
  split; [exact (meta_h_mid _ _ Hm)|]. split; [exact (meta_v_mid _ _ Hm)|].
  destruct (instanceOf_exists 1000 1000) as [this' Hthis'].
  destruct (instanceOf_inv _ _ _ Hthis') as (_ & _ & Hs' & Hm').
  exists this'. split; [exact Hthis'|].
  assert (Hh : meta this' !! "h_mid"
               = Some (MObj (boundsOf (mkRange 0 999 490 849))))
    by (rewrite (meta_h_mid _ _ Hm'); vm_compute; reflexivity).
  assert (Hv : meta this' !! "v_mid"
               = Some (MObj (boundsOf (mkRange 490 509 0 999))))
    by (rewrite (meta_v_mid _ _ Hm'); vm_compute; reflexivity).
  rewrite (is_merged _ _ _ _ _ Hh), (is_merged _ _ _ _ _ Hv), Hh, Hv.
  rewrite !whichSlice_slices, Hs'. vm_compute.
  repeat split; discriminate.
Qed.








(** C5.  For every surface and every coordinate pair, [whichSlice] rounds
    both coordinates to the nearest integer, scans the slices 1..25 in
    ascending order and returns the first index whose range contains the
    rounded point inclusively on all four bounds; when no range contains it
    the call returns [undefined] (here [Ok None]) and never raises. *)
Theorem whichSlice_first_match (w h : Z) (x y : Q) :
  exists this, init w h = Ok this /\
    let X := Math_round x in
    let Y := Math_round y in
    (inject_Z X - (1 # 2) <= x < inject_Z X + (1 # 2))%Q
    /\ (inject_Z Y - (1 # 2) <= y < inject_Z Y + (1 # 2))%Q
    /\ (forall j, (1 <= j <= 25)%nat -> is_Some (elem (slices this) j))
    /\ ((exists i r, whichSlice this x y = Ok (Some i)
           /\ (1 <= i <= 25)%nat
           /\ elem (slices this) i = Some r /\ contains r X Y
           /\ forall j rj, (j < i)%nat -> elem (slices this) j = Some rj ->
                ~ contains rj X Y)
        \/ (whichSlice this x y = Ok None
           /\ forall j rj, elem (slices this) j = Some rj -> ~ contains rj X Y)).
Proof.
  destruct (instanceOf_exists w h) as [this Hthis].
  exists this. split; [exact Hthis|]. cbv zeta.
  split; [apply Math_round_nearest|]. split; [apply Math_round_nearest|].
  split; [|exact (whichSlice_spec w h this x y Hthis)].
  intros j Hj. destruct (instanceOf_inv _ _ _ Hthis) as (_ & _ & -> & _).
  rewrite elem_sliceScreen by exact Hj. eexists; reflexivity.
Qed.

(** C6 (amended).  For every surface, name and coordinate pair, [is]
    raises (a [TypeError]) exactly when the name is neither one of the 19
    names of the glossary nor the name of a property every object inherits;
    [is('bogus_zone', 1, 1)] raises.  [is] does not round: on each of the
    ten merged entries its answer is the exact comparison of the given
    coordinates with the stored bounds, so on the 1000 by 1000 surface
    [is('left', 489.25, 10)] is false although 489.25 rounds to 489 and
    [is('left', 489, 10)] is true. *)
Theorem is_unknown_name (w h : Z) (name : string) (x y : Q) :
  exists this, init w h = Ok this
    /\ (is_ this name x y = Throw TypeError
        <-> (name ∉ vocabulary) /\ (name ∉ objectPrototype))
    /\ length vocabulary = 19%nat /\ NoDup vocabulary
    /\ is_ this "bogus_zone" 1 1 = Throw TypeError
    /\ (forall r, meta this !! name = Some (MObj (boundsOf r)) ->
          is_ this name x y = Ok (within r x y))
    /\ (name ∈ ["left"; "right"; "top"; "bottom"; "l_border"; "r_border";
                "t_border"; "b_border"; "h_mid"; "v_mid"]%string ->
          exists r, meta this !! name = Some (MObj (boundsOf r)))
    /\ exists this', init 1000 1000 = Ok this'
         /\ Math_round (1957 # 4) = 489
         /\ is_ this' "left" (1957 # 4) 10 = Ok false
         /\ is_ this' "left" 489 10 = Ok true.
Proof.
  destruct (instanceOf_exists w h) as [this Hthis].
  exists this. split; [exact Hthis|].
  split; [apply (is_raises_iff w h); exact Hthis|].
  split; [reflexivity|].
  split; [compute_done|].
  split.
  { apply (is_raises_iff w h); [exact Hthis|].
    split; compute_done. }
  split; [intros r Hr; apply is_merged; exact Hr|].
  split; [apply (merged_entries w h); exact Hthis|].
  on_instance 1000 1000.
  split; [reflexivity|].
  assert (Hl : meta this0 !! "left" = Some (MObj (boundsOf (mkRange 0 489 0 999))))
    by (rewrite (meta_left _ _ Hm); vm_compute; reflexivity).
  rewrite !(is_merged _ _ _ _ _ Hl). vm_compute. auto.
Qed.

(** C6, as stated, fails: [constructor] is not one of the metazone names,
    yet [is('constructor', 1, 1)] finds the property inherited from
    [Object.prototype], reads [undefined] bounds from it and returns
    [false] without raising.  The glossary lists 19 names, not 18. *)
Lemma is_unknown_name_counterexample :
  exists this, init 1000 1000 = Ok this
    /\ ("constructor" ∉ vocabulary)
    /\ is_ this "constructor" 1 1 = Ok false
    /\ length vocabulary <> 18%nat.
Proof.
  destruct (instanceOf_exists 1000 1000) as [this Hthis].
  destruct (instanceOf_inv _ _ _ Hthis) as (_ & _ & _ & Hm).
  exists this. split; [exact Hthis|].
  assert (Hn : "constructor" ∉ vocabulary)
    by (compute_done).
  split; [exact Hn|]. split; [|discriminate].
  apply is_inherited.
  - apply (meta_names _ _ Hm). exact Hn.
  - compute_done.
Qed.










(** * Further properties *)

(** ** [_getMergedRange] *)

Lemma mergeLoop_raises l acc :
  mergeLoop l acc = Throw TypeError <-> None ∈ l.
Proof.
  revert acc. induction l as [|a l IH]; intros acc.
  - cbn [mergeLoop]. split; [discriminate|]. intros H. inversion H.
  - destruct a as [r|]; cbn [mergeLoop deref mbind result_bind].
    + rewrite IH, elem_of_cons. split; [auto|]. intros [E|H]; [discriminate E|exact H].
    + split; [intros _; apply list_elem_of_here|reflexivity].
Qed.

Lemma all_some_fmap (l : list (option Range)) :
  None ∉ l -> l = Some <$> omap id l.
Proof.
  induction l as [|[r|] l IH]; intros Hn.
  - reflexivity.
  - cbn. f_equal. apply IH. intros H. apply Hn. apply list_elem_of_further. exact H.
  - destruct Hn. apply list_elem_of_here.
Qed.

Lemma hull_assoc a b c : hull (hull a b) c = hull a (hull b c).
Proof. unfold hull; cbn [xstart xstop ystart ystop]. f_equal; lia. Qed.

Lemma bbox_app r rs r' rs' :
  bbox r (rs ++ r' :: rs') = hull (bbox r rs) (bbox r' rs').
Proof.
  unfold bbox. rewrite foldl_app. cbn [foldl].
  generalize (foldl hull r rs) as a. revert r'.
  induction rs' as [|c rs' IH]; intros r' a; [reflexivity|].
  cbn [foldl]. rewrite hull_assoc. apply IH.
Qed.

Lemma range_eq (a b : Range) :
  xstart a = xstart b -> xstop a = xstop b ->
  ystart a = ystart b -> ystop a = ystop b -> a = b.
Proof. destruct a, b; cbn; congruence. Qed.

Lemma bbox_least r rs b :
  Forall (encloses b) (r :: rs) -> encloses b (bbox r rs).
Proof.
  intros Hall. rewrite Forall_forall in Hall.
  destruct (bbox_tight r rs) as (Hx & HX & Hy & HY).
  apply Exists_exists in Hx as (c1 & H1 & E1).
  apply Exists_exists in HX as (c2 & H2 & E2).
  apply Exists_exists in Hy as (c3 & H3 & E3).
  apply Exists_exists in HY as (c4 & H4 & E4).
  pose proof (Hall _ H1). pose proof (Hall _ H2).
  pose proof (Hall _ H3). pose proof (Hall _ H4).
  unfold encloses in *. lia.
Qed.

Lemma bbox_Permutation r rs r' rs' :
  r :: rs ≡ₚ r' :: rs' -> bbox r rs = bbox r' rs'.
Proof.
  intros HP.
  assert (H1 : encloses (bbox r rs) (bbox r' rs')).
  { apply bbox_least. apply Forall_forall. intros c Hc.
    rewrite <- HP in Hc. exact (bbox_encloses r rs c Hc). }
  assert (H2 : encloses (bbox r' rs') (bbox r rs)).
  { apply bbox_least. apply Forall_forall. intros c Hc.
    rewrite HP in Hc. exact (bbox_encloses r' rs' c Hc). }
  unfold encloses in *. apply range_eq; lia.
Qed.

(** X1.  [_getMergedRange] raises exactly when one of the entries it is
    given is [null] or [undefined]; on every other list, the empty one
    included, it returns an object. *)
Theorem merged_range_raises (ranges : list (option Range)) :
  (_getMergedRange ranges = Throw TypeError <-> None ∈ ranges)
  /\ (None ∉ ranges -> exists b, _getMergedRange ranges = Ok b).
Proof.
  split; [apply mergeLoop_raises|].
  intros Hn. destruct (_getMergedRange ranges) as [b|[]] eqn:E.
  - exists b. reflexivity.
  - apply mergeLoop_raises in E. destruct (Hn E).
Qed.

Lemma merged_range_raises_witness :
  exists b, _getMergedRange [Some (mkRange 0 9 0 9); Some (mkRange 5 20 3 4)] = Ok b.
Proof.
  apply (proj2 (merged_range_raises _)).
  intros H. repeat (apply elem_of_cons in H as [H|H]; [discriminate H|]).
  inversion H.
Defined.

(** X2.  On a non-empty list of ranges [_getMergedRange] returns their
    least bounding box: it encloses every range of the list, each of its
    four bounds is the bound of one of them, and every box enclosing them
    all encloses it. *)
Theorem merged_range_least_box (r : Range) (rs : list Range) :
  exists b, _getMergedRange (Some <$> (r :: rs)) = Ok (boundsOf b)
    /\ Forall (encloses b) (r :: rs)
    /\ Exists (fun c => xstart c = xstart b) (r :: rs)
    /\ Exists (fun c => xstop c = xstop b) (r :: rs)
    /\ Exists (fun c => ystart c = ystart b) (r :: rs)
    /\ Exists (fun c => ystop c = ystop b) (r :: rs)
    /\ forall b', Forall (encloses b') (r :: rs) -> encloses b' b.
Proof.
  exists (bbox r rs). split; [apply _getMergedRange_bbox|].
  split; [apply Forall_forall; intros c Hc; exact (bbox_encloses r rs c Hc)|].
  destruct (bbox_tight r rs) as (Hx & HX & Hy & HY).
  repeat (split; [assumption|]). intros b'. apply bbox_least.
Qed.

(** X3.  The result of [_getMergedRange] does not depend on the order of
    the list. *)
Theorem merged_range_order (l l' : list (option Range)) :
  l ≡ₚ l' -> _getMergedRange l = _getMergedRange l'.
Proof.
  intros HP. destruct (_getMergedRange l) as [b|[]] eqn:E.
  - assert (Hn : None ∉ l).
    { intros H.
      apply (proj2 (mergeLoop_raises l (mkBounds JNull JNull JNull JNull))) in H.
      unfold _getMergedRange in E. rewrite H in E. discriminate E. }
    rewrite <- E. clear b E.
    assert (Hn' : None ∉ l') by (rewrite <- HP; exact Hn).
    rewrite (all_some_fmap l Hn), (all_some_fmap l' Hn').
    assert (HPo : omap id l ≡ₚ omap id l') by (rewrite HP; reflexivity).
    destruct (omap id l) as [|r rs], (omap id l') as [|r' rs'].
    + reflexivity.
    + apply Permutation_nil_cons in HPo. destruct HPo.
    + symmetry in HPo. apply Permutation_nil_cons in HPo. destruct HPo.
    + rewrite !_getMergedRange_bbox. do 2 f_equal. apply bbox_Permutation, HPo.
  - symmetry. apply mergeLoop_raises. rewrite <- HP.
    apply (mergeLoop_raises l (mkBounds JNull JNull JNull JNull)). exact E.
Qed.

Lemma merged_range_order_witness :
  _getMergedRange [Some (mkRange 0 9 0 9); Some (mkRange 5 20 3 4)]
  = _getMergedRange [Some (mkRange 5 20 3 4); Some (mkRange 0 9 0 9)].
Proof. apply merged_range_order. apply perm_swap. Defined.

(** X4.  Merging two non-empty lists at once gives the bounding box of the
    two separately merged ranges. *)
Theorem merged_range_append (r1 r2 : Range) (rs1 rs2 : list Range) :
  exists b1 b2,
    _getMergedRange (Some <$> (r1 :: rs1)) = Ok (boundsOf b1)
    /\ _getMergedRange (Some <$> (r2 :: rs2)) = Ok (boundsOf b2)
    /\ _getMergedRange (Some <$> ((r1 :: rs1) ++ (r2 :: rs2)))
       = _getMergedRange [Some b1; Some b2].
Proof.
  exists (bbox r1 rs1), (bbox r2 rs2).
  split; [apply _getMergedRange_bbox|]. split; [apply _getMergedRange_bbox|].
  change ((r1 :: rs1) ++ r2 :: rs2) with (r1 :: (rs1 ++ r2 :: rs2)).
  rewrite _getMergedRange_bbox, bbox_app.
  change [Some (bbox r1 rs1); Some (bbox r2 rs2)]
    with (Some <$> [bbox r1 rs1; bbox r2 rs2]).
  rewrite _getMergedRange_bbox. reflexivity.
Qed.

(** ** The grid of [sliceScreen] *)

Lemma elem_sliceScreen_inv w h i r :
  elem (sliceScreen w h) i = Some r ->
  (1 <= i <= 25)%nat /\ r = clamp h (cellRange w h i).
Proof.
  intros Hi.
  destruct (decide (1 <= i <= 25)%nat) as [Ii|N];
    [|rewrite (elem_sliceScreen_out _ _ _ N) in Hi; discriminate].
  rewrite elem_sliceScreen in Hi by exact Ii. injection Hi as <-. auto.
Qed.

(** On a positive height only the last row can reach the height. *)
Lemma inner_rows_below h k : 0 < h -> (k <= 4)%nat -> extent h k <= h.
Proof. intros Hh Hk. band_cases k; solve_extent. Qed.

Lemma inner_rows_kept w h i :
  0 < h -> (1 <= i <= 20)%nat ->
  clamp h (cellRange w h i) = cellRange w h i.
Proof.
  intros Hh Hi. unfold clamp.
  destruct (Z.eqb_spec (ystop (cellRange w h i)) h) as [E|E]; [|reflexivity].
  exfalso. cbn [cellRange ystop] in E.
  pose proof (inner_rows_below h (rowOf i) Hh ltac:(unfold rowOf; lia)). lia.
Qed.

(** X5.  The slices form a grid: two slices of the same row have the same
    [ystart] and [ystop], and two slices of the same column have the same
    [xstart] and [xstop]. *)
Theorem slices_aligned (w h : Z) :
  exists this, init w h = Ok this /\
    forall i j ri rj,
      elem (slices this) i = Some ri -> elem (slices this) j = Some rj ->
      (rowOf i = rowOf j -> ystart ri = ystart rj /\ ystop ri = ystop rj)
      /\ (colOf i = colOf j -> xstart ri = xstart rj /\ xstop ri = xstop rj).
Proof.
  on_instance w h. intros i j ri rj Hi Hj.
  apply elem_sliceScreen_inv in Hi as [_ ->].
  apply elem_sliceScreen_inv in Hj as [_ ->].
  rewrite !clamp_xstart, !clamp_xstop, !clamp_ystart, !clamp_ystop.
  cbn [cellRange xstart xstop ystart ystop].
  split; intros ->; auto.
Qed.






(** ** The domain of [whichSlice] *)

Lemma band_range d c x :
  (1 <= c <= 5)%nat -> extent d (c - 1) <= x < extent d c ->
  0 <= x < extent d 5.
Proof. intros Hc. band_cases c; unfold_extent; unfold px; lia. Qed.

Lemma band_empty d c x :
  d <= 1 -> (1 <= c <= 5)%nat -> ~ (extent d (c - 1) <= x < extent d c).
Proof. intros Hd Hc. band_cases c; unfold_extent; unfold px; lia. Qed.

Lemma last_ystop_cases w h :
  (extent h 5 = h + 1 /\ ystop (clamp h (cellRange w h 25)) = h - 1)
  \/ (extent h 5 <> h + 1
      /\ ystop (clamp h (cellRange w h 25)) = extent h 5 - 1).
Proof.
  destruct (clamp_ystop_cases h (cellRange w h 25)) as [[E ->]|[E ->]];
    cbn [cellRange ystop] in *; change (rowOf 25) with 5%nat in *; lia.
Qed.

(** The points [whichSlice] finds are those of the rectangle from the
    origin to the stops of the last slice. *)
Lemma found_iff w h this x y :
  instanceOf w h this -> 0 < h ->
  (exists i, whichSlice this x y = Ok (Some i))
  <-> 0 <= Math_round x <= xstop (clamp h (cellRange w h 25))
      /\ 0 <= Math_round y <= ystop (clamp h (cellRange w h 25)).
Proof.
  intros Hthis Hh.
  destruct (instanceOf_inv _ _ _ Hthis) as (_ & _ & Hs & _).
  rewrite clamp_xstop.
  change (xstop (cellRange w h 25)) with (extent w 5 - 1).
  set (X := Math_round x). set (Y := Math_round y).
  destruct (whichSlice_spec w h this x y Hthis)
    as [(i & r & Hres & Hi & Hr & Hc & _)|[Hres Hnone]];
    fold X Y in Hc || fold X Y in Hnone.
  - split; [intros _|intros _; exists i; exact Hres].
    rewrite Hs in Hr. apply elem_sliceScreen_inv in Hr as [_ ->].
    pose proof Hc as [_ [_ Hys]].
    apply contains_bands in Hc as [Hbx Hby].
    pose proof (band_range w _ X (colOf_bounds i Hi) Hbx).
    pose proof (band_range h _ Y (rowOf_bounds i Hi) Hby).
    pose proof (extent_mono h (rowOf i) 5 ltac:(lia)
                  ltac:(pose proof (rowOf_bounds i Hi); lia)).
    destruct (last_ystop_cases w h) as [[E ->]|[E ->]];
      destruct (clamp_ystop_cases h (cellRange w h i)) as [[Ei Ei']|[Ei Ei']];
      rewrite Ei' in Hys; cbn [cellRange ystop] in *; lia.
  - split; [intros [i Hi]; rewrite Hres in Hi; discriminate Hi|].
    intros [Hx Hy]. exfalso.
    destruct (band_exists w X ltac:(lia)) as (c & Hc & Hbx).
    assert (Hyb : 0 <= Y < extent h 5)
      by (destruct (last_ystop_cases w h) as [[E E']|[E E']];
          rewrite E' in Hy; lia).
    destruct (band_exists h Y Hyb) as (r & Hr & Hby).
    set (i := (5 * (r - 1) + c)%nat).
    assert (Ii : (1 <= i <= 25)%nat) by (unfold i; lia).
    assert (Hcol : colOf i = c) by (unfold colOf, i; lia).
    assert (Hrow : rowOf i = r) by (unfold rowOf, i; lia).
    apply (Hnone i (clamp h (cellRange w h i)));
      [rewrite Hs; apply elem_sliceScreen; exact Ii|].
    unfold contains. rewrite clamp_xstart, clamp_xstop, clamp_ystart.
    cbn [cellRange xstart xstop ystart]. rewrite Hcol, Hrow.
    split; [lia|]. split; [lia|].
    destruct (decide (r = 5%nat)) as [->|N5].
    + destruct (last_ystop_cases w h) as [[E E']|[E E']];
        destruct (clamp_ystop_cases h (cellRange w h i)) as [[Ei ->]|[Ei ->]];
        rewrite E' in Hy; cbn [cellRange ystop] in *; rewrite ?Hrow in *; lia.
    + rewrite (inner_rows_kept w h i Hh ltac:(unfold i; lia)).
      cbn [cellRange ystop]. rewrite Hrow. lia.
Qed.

(** X9.  On a surface of positive height [whichSlice] finds a point
    exactly when the rounded point lies between the origin and the stops of
    slice 25 on both axes, whether or not it is inside the surface;
    everywhere else it returns [undefined]. *)
Theorem whichSlice_domain (w h : Z) (x y : Q) :
  0 < h ->
  exists this r25, init w h = Ok this /\ elem (slices this) 25 = Some r25
    /\ ((exists i, whichSlice this x y = Ok (Some i))
        <-> 0 <= Math_round x <= xstop r25 /\ 0 <= Math_round y <= ystop r25)
    /\ (whichSlice this x y = Ok None
        <-> ~ (0 <= Math_round x <= xstop r25
               /\ 0 <= Math_round y <= ystop r25)).
Proof.
  intros Hh. destruct (instanceOf_exists w h) as [this Hthis].
  destruct (instanceOf_inv _ _ _ Hthis) as (_ & _ & Hs & _).
  exists this, (clamp h (cellRange w h 25)).
  split; [exact Hthis|].
  split; [rewrite Hs; apply elem_sliceScreen; lia|].
  pose proof (found_iff w h this x y Hthis Hh) as Hiff.
  split; [exact Hiff|]. rewrite <- Hiff.
  destruct (whichSlice_spec w h this x y Hthis)
    as [(i & r & Hres & _)|[Hres _]]; rewrite Hres.
  - split; [discriminate|]. intros Hn. destruct Hn. exists i. reflexivity.
  - split; [|reflexivity]. intros _ [i Hi]. discriminate Hi.
Qed.

Lemma whichSlice_domain_witness :
  exists this i, init 125 125 = Ok this
    /\ whichSlice this 126 126 = Ok (Some i)
    /\ whichSlice this 127 126 = Ok None.
Proof.
  destruct (whichSlice_domain 125 125 126 126)
    as (this & r25 & Hthis & Hr & Hfound & _); [lia|].
  destruct (whichSlice_domain 125 125 127 126)
    as (this' & r25' & Hthis' & Hr' & _ & Hnone); [lia|].
  rewrite Hthis in Hthis'. injection Hthis' as <-.
  rewrite Hr in Hr'. injection Hr' as <-.
  destruct (instanceOf_inv _ _ _ Hthis) as (_ & _ & Hs & _).
  rewrite Hs in Hr. vm_compute in Hr. injection Hr as <-.
  destruct (proj2 Hfound) as [i Hi]; [vm_compute; intuition discriminate|].
  exists this, i. split; [exact Hthis|]. split; [exact Hi|].
  apply Hnone. vm_compute. intuition.
Defined.

(** X10.  A surface at most one pixel wide or at most one pixel high,
    zero and negative sizes included, has only empty slices: the
    constructor does not raise and [whichSlice] finds no point at all. *)
Theorem degenerate_surface_empty (w h : Z) (x y : Q) :
  w <= 1 \/ h <= 1 ->
  exists this, init w h = Ok this /\ whichSlice this x y = Ok None.
Proof.
  intros Hd. destruct (instanceOf_exists w h) as [this Hthis].
  destruct (instanceOf_inv _ _ _ Hthis) as (_ & _ & Hs & _).
  exists this. split; [exact Hthis|].
  apply (whichSlice_none w h); [exact Hthis|].
  intros j rj Hj Hc. rewrite Hs in Hj.
  apply elem_sliceScreen_inv in Hj as [Ij ->].
  apply contains_bands in Hc as [Hbx Hby].
  destruct Hd as [Hw|Hh].
  - exact (band_empty w _ _ Hw (colOf_bounds j Ij) Hbx).
  - exact (band_empty h _ _ Hh (rowOf_bounds j Ij) Hby).
Qed.

Lemma degenerate_surface_empty_witness :
  exists this, init 1 1000 = Ok this /\ whichSlice this 0 500 = Ok None.
Proof. apply (degenerate_surface_empty 1 1000 0 500). left. lia. Defined.



(** ** [is] against [whichSlice] *)

Lemma within_contains r (x y : Z) :
  within r (inject_Z x) (inject_Z y) = true <-> contains r x y.
Proof.
  rewrite within_spec. unfold contains. rewrite <- !Zle_Qle. tauto.
Qed.

Lemma within_encloses b c x y :
  encloses b c -> within c x y = true -> within b x y = true.
Proof.
  unfold encloses. intros (H1 & H2 & H3 & H4).
  rewrite !within_spec. rewrite Zle_Qle in H1, H2, H3, H4.
  intros [[? ?] [? ?]]. repeat split; eapply Qle_trans; eassumption.
Qed.

(** Each merged entry is the bounding box of the stored slices of its
    index list. *)
Lemma meta_cells w h this name idx :
  instanceOf w h this -> (name, idx) ∈ mergedZones ->
  exists i0 rest, idx = i0 :: rest
    /\ Forall (fun i => (1 <= i <= 25)%nat) idx
    /\ meta this !! name
       = Some (MObj (boundsOf
           (bbox (clamp h (cellRange w h i0))
                 ((fun i => clamp h (cellRange w h i)) <$> rest)))).
Proof.
  intros Hthis Hin.
  destruct (instanceOf_inv _ _ _ Hthis) as (_ & _ & _ & Hm).
  unfold mergedZones in Hin. rewrite !elem_of_cons, elem_of_nil in Hin.
  repeat (destruct Hin as [[= -> ->]|Hin]); [..|destruct Hin];
    eexists; eexists; (split; [reflexivity|]);
    (split; [repeat apply Forall_cons_2; try apply Forall_nil_2; lia|]).
  - rewrite (meta_left _ _ Hm). union_cells. reflexivity.
  - rewrite (meta_right _ _ Hm). union_cells. reflexivity.
  - rewrite (meta_top _ _ Hm). union_cells. reflexivity.
  - rewrite (meta_bottom _ _ Hm). union_cells. reflexivity.
  - rewrite (meta_l_border _ _ Hm). union_cells. reflexivity.
  - rewrite (meta_r_border _ _ Hm). union_cells. reflexivity.
  - rewrite (meta_t_border _ _ Hm). union_cells. reflexivity.
  - rewrite (meta_b_border _ _ Hm). union_cells. reflexivity.
  - rewrite (meta_h_mid _ _ Hm). union_cells. reflexivity.
  - rewrite (meta_v_mid _ _ Hm). union_cells. reflexivity.
Qed.

(** X12.  A point that [whichSlice] assigns to slice [i] is inside every
    merged metazone [buildMeta] builds from a list containing [i]: [is]
    answers [true] there for the rounded point. *)
Theorem found_slice_in_its_zones (w h : Z) (name : string) (idx : list nat)
    (x y : Q) (i : nat) :
  (name, idx) ∈ mergedZones -> i ∈ idx ->
  exists this, init w h = Ok this /\
    (whichSlice this x y = Ok (Some i) ->
     is_ this name (inject_Z (Math_round x)) (inject_Z (Math_round y)) = Ok true).
Proof.
  intros Hz Hi. destruct (instanceOf_exists w h) as [this Hthis].
  destruct (instanceOf_inv _ _ _ Hthis) as (_ & _ & Hs & _).
  exists this. split; [exact Hthis|]. intros Hres.
  destruct (meta_cells w h this name idx Hthis Hz) as (i0 & rest & -> & _ & Hmeta).
  rewrite (is_merged _ _ _ _ _ Hmeta). f_equal.
  destruct (whichSlice_spec w h this x y Hthis)
    as [(k & r & Hres' & _ & Hr & Hc & _)|[Hres' _]];
    rewrite Hres in Hres'; [|discriminate Hres'].
  injection Hres' as <-. rewrite Hs in Hr.
  apply elem_sliceScreen_inv in Hr as [_ ->].
  apply (within_encloses _ (clamp h (cellRange w h i)));
    [|apply within_contains; exact Hc].
  apply bbox_encloses.
  change (clamp h (cellRange w h i0) :: ((fun i => clamp h (cellRange w h i)) <$> rest))
    with ((fun i => clamp h (cellRange w h i)) <$> (i0 :: rest)).
  apply list_elem_of_fmap. exists i. auto.
Qed.

Lemma found_slice_in_its_zones_witness :
  exists this, init 1000 1000 = Ok this
    /\ is_ this "h_mid" (inject_Z 100) (inject_Z 600) = Ok true.
Proof.
  destruct (found_slice_in_its_zones 1000 1000 "h_mid" [15; 16; 17; 18; 19; 20]%nat
              100 600 16%nat) as (this & Hthis & Hin); [compute_done|compute_done|].
  exists this. split; [exact Hthis|].
  apply Hin. rewrite whichSlice_slices.
  destruct (instanceOf_inv _ _ _ Hthis) as (_ & _ & -> & _).
  vm_compute. reflexivity.
Defined.

(** X13.  A merged metazone built from a sublist of another's slices lies
    inside it: wherever [is] answers [true] for the first it answers [true]
    for the second (so [l_border] lies in [left], [r_border] in [right],
    [t_border] in [top] and [b_border] in [bottom]). *)
Theorem zone_of_sublist_inside (w h : Z) (n1 n2 : string) (idx1 idx2 : list nat)
    (x y : Q) :
  (n1, idx1) ∈ mergedZones -> (n2, idx2) ∈ mergedZones -> idx1 ⊆ idx2 ->
  exists this, init w h = Ok this /\
    (is_ this n1 x y = Ok true -> is_ this n2 x y = Ok true).
Proof.
  intros H1 H2 Hsub. destruct (instanceOf_exists w h) as [this Hthis].
  exists this. split; [exact Hthis|].
  destruct (meta_cells w h this n1 idx1 Hthis H1) as (i1 & r1 & -> & _ & Hm1).
  destruct (meta_cells w h this n2 idx2 Hthis H2) as (i2 & r2 & -> & _ & Hm2).
  rewrite (is_merged _ _ _ _ _ Hm1), (is_merged _ _ _ _ _ Hm2).
  intros [= Hin]. f_equal. revert Hin. apply within_encloses.
  pose (f := fun i => clamp h (cellRange w h i)).
  apply bbox_least. apply Forall_forall. intros c Hc.
  change (c ∈ f <$> (i1 :: r1)) in Hc.
  apply list_elem_of_fmap in Hc as (k & -> & Hk).
  apply bbox_encloses.
  change (f k ∈ f <$> (i2 :: r2)).
  apply list_elem_of_fmap. exists k. split; [reflexivity|]. apply Hsub, Hk.
Qed.

Lemma zone_of_sublist_inside_witness :
  exists this, init 1000 1000 = Ok this
    /\ is_ this "left" (21 # 2) 500 = Ok true.
Proof.
  destruct (zone_of_sublist_inside 1000 1000 "l_border" "left"
              [1; 6; 11; 16; 21]%nat [1; 2; 6; 7; 11; 12; 16; 17; 21; 22]%nat
              (21 # 2) 500) as (this & Hthis & Hin);
    [compute_done|compute_done| |].
  { intros k Hk. rewrite !elem_of_cons, elem_of_nil in *. tauto. }
  exists this. split; [exact Hthis|]. apply Hin.
  destruct (meta_cells 1000 1000 this "l_border" [1; 6; 11; 16; 21]%nat Hthis)
    as (i0 & rest & [= <- <-] & _ & Hm); [compute_done|].
  rewrite (is_merged _ _ _ _ _ Hm). vm_compute. reflexivity.
Defined.

(** ** The boxes of the merged metazones *)













(** ** The constructor *)


(** X17.  [is] never answers [true] for a single-cell metazone: for the
    four corners, the four [_zone] names and [center] it returns [false]
    at every point of every surface, without raising. *)
Theorem single_cell_names_never_true (w h : Z) (name : string) (x y : Q) :
  name ∈ ["lt_corner"; "rt_corner"; "lb_corner"; "rb_corner";
          "lt_zone"; "rt_zone"; "lb_zone"; "rb_zone"; "center"]%string ->
  exists this, init w h = Ok this /\ is_ this name x y = Ok false.
Proof.
  intros Hname. destruct (instanceOf_exists w h) as [this Hthis].
  destruct (instanceOf_inv _ _ _ Hthis) as (_ & _ & _ & Hm).
  exists this. split; [exact Hthis|].
  rewrite !elem_of_cons, elem_of_nil in Hname.
  repeat (destruct Hname as [->|Hname]); [..|destruct Hname];
    eapply is_array.
  - exact (meta_lt_corner _ _ Hm).
  - exact (meta_rt_corner _ _ Hm).
  - exact (meta_lb_corner _ _ Hm).
  - exact (meta_rb_corner _ _ Hm).
  - exact (meta_lt_zone _ _ Hm).
  - exact (meta_rt_zone _ _ Hm).
  - exact (meta_lb_zone _ _ Hm).
  - exact (meta_rb_zone _ _ Hm).
  - exact (meta_center _ _ Hm).
Qed.

Lemma single_cell_names_never_true_witness :
  exists this, init 1000 1000 = Ok this /\ is_ this "lt_zone" 300 300 = Ok false.
Proof.
  apply (single_cell_names_never_true 1000 1000 "lt_zone" 300 300).
  compute_done.
Defined.
